(** * Real-time trade tracking: the dashboard query path and the bus consumer

    A shallow embedding of the two scripts of the repository:

    - [src/6DashboardOrNotifier/dashboard.py]: [fetch_trades] (the recent
      history query against [market.trades]) and the Dash callback
      [update_chart] (price trace, 10-point moving average, "no data" figure);
    - [src/consumers/coinbaseConsumer.py]: the poll loop of the Kafka consumer.

    Python code that talks to the outside world is embedded in a small
    state-and-exception monad over an explicit [World]; the poll loop is a
    step function driven by the sequence of results that [consumer.poll]
    delivers. *)

From Stdlib Require Import QArith.
From stdpp Require Import base decidable option list sorting gmap strings pretty.

Local Open Scope Z_scope.

(* ===================================================================== *)
(** * The dashboard *)
(* ===================================================================== *)

Module Dashboard.

(** ** Data *)

(** A row of the table [market.trades], with the columns the query uses.
    [trade_time] is a timestamp, counted in microseconds; [price] and
    [quantity] are decimals, kept as exact rationals. *)
Record TradeRow := mkTrade {
  symbol : string;
  trade_time : Z;
  price : Q;
  quantity : Q
}.

(** A row of the DataFrame returned by [pd.read_sql]: the three selected
    columns.  A DataFrame is the list of its rows, in positional order. *)
Record FrameRow := mkRow {
  df_trade_time : Z;
  df_price : Q;
  df_quantity : Q
}.

Definition DataFrame := list FrameRow.

(** [df.empty] and [len(df)] *)
Definition df_empty (df : DataFrame) : bool :=
  match df with [] => true | _ :: _ => false end.

(** ** The world outside the process *)

Inductive ConnStatus := ConnOpen | ConnClosed.

Global Instance ConnStatus_eq_dec : EqDecision ConnStatus.
Proof. solve_decision. Defined.

(** The database server as [fetch_trades] sees it, together with the table
    of connections this process has created, keyed by handle. *)
Inductive Exn :=
  | OperationalError   (* [psycopg2.connect]: server unreachable, login refused *)
  | ProgrammingError   (* [psycopg2.connect]: the DSN cannot be parsed *)
  | DatabaseError.     (* raised by [pd.read_sql] when the query fails *)

Record World := mkWorld {
  db_accepting : bool;          (* [psycopg2.connect(DSN)] succeeds *)
  connect_error : Exn;          (* what it raises when it does not *)
  trades_readable : bool;       (* the SELECT on [market.trades] can run *)
  market_trades : list TradeRow;
  (* the order in which the server emits rows of equal [trade_time] for a
     query with a given LIMIT: smaller rank first.  SQL leaves it open, and
     the server may choose differently for different limits. *)
  tie_rank : Z → FrameRow → Z;
  connections : gmap nat ConnStatus
}.

Definition set_connections (c : gmap nat ConnStatus) (w : World) : World :=
  {| db_accepting := db_accepting w;
     connect_error := connect_error w;
     trades_readable := trades_readable w;
     market_trades := market_trades w;
     tie_rank := tie_rank w;
     connections := c |}.

(** The handles that are open in a world. *)
Definition open_connections (w : World) : gset nat :=
  dom (filter (λ kv, kv.2 = ConnOpen) (connections w)).

(** ** The monad of effectful Python code *)

Inductive Result (A : Type) :=
  | Ok (a : A)
  | Raise (e : Exn).
Global Arguments Ok {A} a.
Global Arguments Raise {A} e.

Definition Py (A : Type) : Type := World → Result A * World.

Global Instance Py_ret : MRet Py := λ A a w, (Ok a, w).

Global Instance Py_bind : MBind Py := λ A B f m w,
  match m w with
  | (Ok a, w') => f a w'
  | (Raise e, w') => (Raise e, w')
  end.

(** [try: body finally: final]: [final] runs whether or not [body] raised;
    the outcome is that of [body] unless [final] raises itself. *)
Definition try_finally {A} (body : Py A) (final : Py unit) : Py A := λ w,
  match body w with
  | (r, w1) =>
      match final w1 with
      | (Ok _, w2) => (r, w2)
      | (Raise e, w2) => (Raise e, w2)
      end
  end.

(** ** Database operations *)

(** [psycopg2.connect(DSN)]: a new open connection under a fresh handle, or
    the exception of the failed attempt. *)
Definition psycopg2_connect : Py nat := λ w,
  if db_accepting w then
    let conn := fresh (dom (connections w)) in
    (Ok conn, set_connections (<[conn := ConnOpen]> (connections w)) w)
  else (Raise (connect_error w), w).

(** [conn.close()] *)
Definition conn_close (conn : nat) : Py unit := λ w,
  (Ok (), set_connections (<[conn := ConnClosed]> (connections w)) w).

(** The SQL text of [fetch_trades], clause by clause. *)

(** [WHERE symbol = %s], then [SELECT trade_time, price, quantity] *)
Definition select_symbol (sym : string) (rows : list TradeRow) : DataFrame :=
  (λ r, mkRow (trade_time r) (price r) (quantity r))
    <$> filter (λ r, symbol r = sym) rows.

Definition time_le (r1 r2 : FrameRow) : Prop := df_trade_time r1 ≤ df_trade_time r2.
Definition time_ge (r1 r2 : FrameRow) : Prop := df_trade_time r2 ≤ df_trade_time r1.
Definition time_lt (r1 r2 : FrameRow) : Prop := df_trade_time r1 < df_trade_time r2.

Global Instance time_le_dec : RelDecision time_le.
Proof. intros r1 r2. unfold time_le. apply _. Defined.
Global Instance time_ge_dec : RelDecision time_ge.
Proof. intros r1 r2. unfold time_ge. apply _. Defined.

(** Later trades first; among trades of one time, the rank decides. *)
Definition query_order (rank : FrameRow → Z) (r1 r2 : FrameRow) : Prop :=
  df_trade_time r2 < df_trade_time r1 ∨
  (df_trade_time r1 = df_trade_time r2 ∧ rank r1 ≤ rank r2).

Global Instance query_order_dec rank : RelDecision (query_order rank).
Proof. intros r1 r2. unfold query_order. apply _. Defined.

(** [ORDER BY trade_time DESC].  SQL fixes no order among rows with equal
    times; they come out by the rank the server gives them for this query. *)
Definition order_by_trade_time_desc (rank : FrameRow → Z) (df : DataFrame) :
    DataFrame :=
  merge_sort (query_order rank) df.

(** [LIMIT %s] *)
Definition sql_limit (limit : Z) (df : DataFrame) : DataFrame :=
  take (Z.to_nat limit) df.

(** The greatest value a LIMIT can take: it is a [bigint]. *)
Definition max_bigint : Z := 2 ^ 63 - 1.

(** [pd.read_sql(query, conn, params=(symbol, limit))].  The query needs an
    open connection and a readable table; PostgreSQL refuses a negative
    LIMIT and one that does not fit a [bigint].  Every failure reaches the
    caller as [DatabaseError]. *)
Definition read_sql (sym : string) (limit : Z) (conn : nat) : Py DataFrame := λ w,
  match connections w !! conn with
  | Some ConnOpen =>
      if trades_readable w && bool_decide (0 ≤ limit ≤ max_bigint) then
        (Ok (sql_limit limit
               (order_by_trade_time_desc (tie_rank w limit)
                  (select_symbol sym (market_trades w)))), w)
      else (Raise DatabaseError, w)
  | _ => (Raise DatabaseError, w)
  end.

(** [df.sort_values("trade_time")]: ascending. *)
Definition sort_values (df : DataFrame) : DataFrame :=
  merge_sort time_le df.

(** ** [fetch_trades] *)

Definition fetch_trades (sym : string) (limit : Z) : Py DataFrame :=
  conn ← psycopg2_connect;
  df ← try_finally (read_sql sym limit conn) (conn_close conn);
  mret (if negb (df_empty df) then sort_values df else df).

(** ** The moving average *)

(** pandas computes the rolling mean in float64, by its own summation
    scheme.  The number it arrives at for a position, as the rational that
    the float64 denotes, is taken from the library: [rolling_value window
    values i] for position [i] of the series [values]. *)
Class Pandas := rolling_value : nat → list Q → nat → Q.

(** [Series.rolling(window).mean()] with the default [min_periods = window]:
    position [i] has [nobs = min (i+1) window] observations in its window;
    it yields NaN ([None]) unless [nobs >= min_periods] and [nobs > 0]. *)
Definition rolling_mean `{pd : Pandas} (window : nat) (values : list Q) :
    list (option Q) :=
  imap (λ i _,
          let nobs := Nat.min (S i) window in
          if decide (window ≤ nobs ∧ 0 < nobs)%nat
          then Some (rolling_value window values i)
          else None) values.

(** ** Figures *)

(** [go.Scatter]: a NaN in [y] is a gap in the line, written [None]. *)
Record Scatter := mkScatter {
  x : list Z;
  y : list (option Q);
  mode : string;
  name : string;
  line_dash : option string
}.

Record Layout := mkLayout {
  title : string;
  xaxis_title : string;
  yaxis_title : string;
  hovermode : option string;
  margin : option (nat * nat * nat * nat);   (* l, r, t, b *)
  paper_bgcolor : option string;
  plot_bgcolor : option string;
  font_color : option string
}.

Record Figure := mkFigure {
  data : list Scatter;
  layout : Layout
}.

(** The window of the moving average in [update_chart]. *)
Definition ma_window : nat := 10.

(** ** [update_chart] *)

(** The figure returned when the frame is empty: a title, two axis titles
    and no trace. *)
Definition no_data_figure (selected_symbol : string) : Figure :=
  mkFigure []
    (mkLayout (selected_symbol +:+ " – no data found")
              "Time" "Price (USDT)" None None None None None).

(** The body of [update_chart] below the fetch: from the frame to the
    figure. *)
Definition figure_for `{pd : Pandas} (selected_symbol : string) (df : DataFrame) :
    Figure :=
  if df_empty df then no_data_figure selected_symbol
  else
    let price_trace :=
      mkScatter (df_trade_time <$> df) (Some <$> (df_price <$> df))
                "lines+markers" "Price" None in
    let traces :=
      if decide (ma_window ≤ length df)%nat then
        let ma_10 := rolling_mean ma_window (df_price <$> df) in
        let ma_trace :=
          mkScatter (df_trade_time <$> df) ma_10 "lines" "MA(10)" (Some "dash") in
        [price_trace; ma_trace]
      else [price_trace] in
    mkFigure traces
      (mkLayout (selected_symbol +:+ " – last " +:+ pretty (length df)
                   +:+ " trades")
                "Trade Time" "Price (USDT)" (Some "x unified")
                (Some (60, 30, 70, 60)%nat)
                (Some "#C0F6CE") (Some "#CEE6F1") (Some "black")).

Definition update_chart `{pd : Pandas} (selected_symbol : string) (n_points : Z)
    (n_intervals : nat) : Py Figure :=
  df ← fetch_trades selected_symbol n_points;
  mret (figure_for selected_symbol df).

(** [update_points_label] *)
Definition update_points_label (n_points : Z) : string :=
  "Currently showing last " +:+ pretty n_points +:+ " trades.".

(** ** Names for what a call of [fetch_trades] goes through *)

(** The rows the query selects, before the frame is put in time order. *)
Definition result_set (sym : string) (limit : Z) (w : World) : DataFrame :=
  sql_limit limit
    (order_by_trade_time_desc (tie_rank w limit)
       (select_symbol sym (market_trades w))).

(** The world after a connection has been opened and closed again. *)
Definition after_session (w : World) : World :=
  let conn := fresh (dom (connections w)) in
  set_connections (<[conn := ConnClosed]> (<[conn := ConnOpen]> (connections w))) w.

(** ** Reading a figure *)

(** The moving-average trace, when the figure has one: it is appended after
    the price trace. *)
Definition ma_trace_of (fig : Figure) : option Scatter := data fig !! 1%nat.

(** The value the moving-average line shows at position [i] of the window,
    if it shows one there. *)
Definition trend_at (fig : Figure) (i : nat) : option Q :=
  s ← ma_trace_of fig; v ← y s !! i; v.

(** The points of the moving-average line, as pairs of a trade time and an
    average, in the order of the window. *)
Definition trend_points (fig : Figure) : list (Z * Q) :=
  match ma_trace_of fig with
  | Some s => omap (λ tv, (tv.1,.) <$> tv.2) (zip (x s) (y s))
  | None => []
  end.

(** ** Sample data *)

Definition btc (t : Z) (p : Q) : TradeRow := mkTrade "BTCUSDT" t p 1%Q.

(** A server that answers and leaves rows of equal time in stored order. *)
Definition sample_store (trades : list TradeRow) : World :=
  mkWorld true OperationalError true trades (λ _ _, 0) ∅.

Definition sample_world : World :=
  sample_store [btc 5 1%Q; mkTrade "ETHUSDT" 6 2%Q 1%Q; btc 3 3%Q; btc 9 4%Q].

(** Two trades of one symbol at the same instant. *)
Definition tied_world : World :=
  sample_store [btc 7 1%Q; btc 7 2%Q].

(** Twelve trades, inserted newest first. *)
Definition twelve_world : World :=
  sample_store
    ((λ n, btc (Z.of_nat n) (inject_Z (Z.of_nat n))) <$> reverse (seq 1 12)).


(** A library for the examples: one whose mean of the last [window] values
    happens to come out without rounding. *)
Definition Qsum (values : list Q) : Q := foldr Qplus 0%Q values.

Definition sample_pandas : Pandas := λ window values i,
  Qred (Qsum (take window (drop (S i - window) values))
        / inject_Z (Z.of_nat window)).

End Dashboard.

(* ===================================================================== *)
(** * The bus consumer *)
(* ===================================================================== *)

Module Consumer.

(** ** Data *)

Record KafkaError := mkKafkaError {
  error_code : Z;
  error_str : string
}.

(** A message as [consumer.poll] returns it.  Key and payload are byte
    strings, one character of a [string] per byte; either may be absent
    ([None] in Python). *)
Record Message := mkMessage {
  msg_error : option KafkaError;
  msg_key : option string;
  msg_value : option string
}.

(** What one call of [consumer.poll(1.0)] gives the loop. *)
Inductive Poll :=
  | PollNone                      (* the wait of [poll_timeout] elapsed *)
  | PollMessage (msg : Message)
  | PollInterrupt.                (* Ctrl+C while waiting *)

(** The bound of the wait, in seconds. *)
Definition poll_timeout : Q := 1%Q.

Inductive Exn :=
  | KafkaException (e : KafkaError)
  | AttributeError
  | UnicodeDecodeError
  | KeyboardInterrupt.

(** ** Decoding bytes *)

Definition in_range (lo hi : N) (c : Ascii.ascii) : bool :=
  let n := Ascii.N_of_ascii c in (lo <=? n)%N && (n <=? hi)%N.

(** A continuation byte, 80..BF. *)
Definition is_tail (c : Ascii.ascii) : bool := in_range 128 191 c.

(** Well-formed UTF-8, as the strict codec of [bytes.decode()] accepts it:
    one byte 00..7F; two bytes from C2..DF; three bytes from E0..EF, without
    overlong forms (E0 asks for A0..BF) and without surrogates (ED asks for
    80..9F); four bytes from F0..F4, without overlong forms (F0 asks for
    90..BF) and not beyond U+10FFFF (F4 asks for 80..8F). *)
Fixpoint utf8_valid (s : string) : bool :=
  match s with
  | EmptyString => true
  | String b0 s1 =>
      if in_range 0 127 b0 then utf8_valid s1
      else
        match s1 with
        | EmptyString => false
        | String b1 s2 =>
            if in_range 194 223 b0 then is_tail b1 && utf8_valid s2
            else
              match s2 with
              | EmptyString => false
              | String b2 s3 =>
                  if in_range 224 239 b0 then
                    (if in_range 224 224 b0 then in_range 160 191 b1
                     else if in_range 237 237 b0 then in_range 128 159 b1
                     else is_tail b1)
                    && is_tail b2 && utf8_valid s3
                  else
                    match s3 with
                    | EmptyString => false
                    | String b3 s4 =>
                        if in_range 240 244 b0 then
                          (if in_range 240 240 b0 then in_range 144 191 b1
                           else if in_range 244 244 b0 then in_range 128 143 b1
                           else is_tail b1)
                          && is_tail b2 && is_tail b3 && utf8_valid s4
                        else false
                    end
              end
        end
  end.

(** [b.decode()]: the text, kept in its UTF-8 bytes, or
    [UnicodeDecodeError]. *)
Definition decode (b : string) : Exn + string :=
  if utf8_valid b then inr b else inl UnicodeDecodeError.

(** [msg.key().decode() if msg.key() else None]: a missing key and an empty
    key give [None]; any other key is decoded. *)
Definition key_text (k : option string) : Exn + option string :=
  match k with
  | Some (String c s) =>
      match decode (String c s) with
      | inl e => inl e
      | inr text => inr (Some text)
      end
  | _ => inr None
  end.

(** ** The process *)

(** The state of the process: what it has printed, one entry per call of
    [print], and whether the consumer object is still open. *)
Record Proc := mkProc {
  stdout : list string;
  consumer_open : bool
}.

Definition print (line : string) (p : Proc) : Proc :=
  mkProc (stdout p ++ [line]) (consumer_open p).

Definition consumer_close (p : Proc) : Proc :=
  mkProc (stdout p) false.

Definition newline : string := String (Ascii.ascii_of_nat 10) "".

Definition banner : string :=
  "Waiting for messages..." +:+ newline +:+ "Press Ctrl+C to exit." +:+ newline.

Definition interrupted_notice : string :=
  newline +:+ "Interrupted. Closing consumer...".

(** How an f-string shows the decoded key: the text, or [None]. *)
Definition show_key (k : option string) : string :=
  match k with
  | Some text => text
  | None => "None"
  end.

(** The line printed for a decoded key and a decoded payload. *)
Definition received_line (k : option string) (v : string) : string :=
  "Received message: key=" +:+ show_key k +:+ ", value=" +:+ v.

(** ** The loop *)

(** One pass through the body of [while True].  [inl e]: the body raised
    [e]; [inr p]: the loop goes around again in state [p].  The f-string
    works from left to right: the key is decoded before the payload is
    looked at. *)
Definition loop_body (r : Poll) (p : Proc) : Exn + Proc :=
  match r with
  | PollInterrupt => inl KeyboardInterrupt
  | PollNone => inr p                                   (* [continue] *)
  | PollMessage msg =>
      match msg_error msg with
      | Some e => inl (KafkaException e)
      | None =>
          match key_text (msg_key msg) with
          | inl e => inl e
          | inr k =>
              match msg_value msg with
              | None => inl AttributeError              (* [None.decode()] *)
              | Some b =>
                  match decode b with
                  | inl e => inl e
                  | inr v => inr (print (received_line k v) p)
                  end
              end
          end
      end
  end.

(** The loop over the results that the polls deliver.  [None]: every result
    has been handled and the loop is polling again. *)
Fixpoint run_loop (polls : list Poll) (p : Proc) : option Exn * Proc :=
  match polls with
  | [] => (None, p)
  | r :: polls' =>
      match loop_body r p with
      | inl e => (Some e, p)
      | inr p' => run_loop polls' p'
      end
  end.

Inductive Outcome :=
  | StillPolling            (* inside the loop, waiting in [poll] *)
  | Exited                  (* the script ran to its end *)
  | Uncaught (e : Exn).     (* the script died with a traceback *)

Definition initial : Proc := mkProc [] true.

(** The script from [try:] on: the loop, the handler of
    [KeyboardInterrupt], and [finally: consumer.close()]. *)
Definition script (polls : list Poll) : Outcome * Proc :=
  match run_loop polls (print banner initial) with
  | (None, p) => (StillPolling, p)
  | (Some KeyboardInterrupt, p) =>
      (Exited, consumer_close (print interrupted_notice p))
  | (Some e, p) => (Uncaught e, consumer_close p)
  end.

(** The messages among the results of the polls. *)
Definition deliveries (polls : list Poll) : list Message :=
  omap (λ r, match r with PollMessage m => Some m | _ => None end) polls.

(** A result of a poll that lets the loop go on: a timeout, or a message
    without error whose key, if it has one, and whose payload are
    well-formed UTF-8. *)
Definition harmless (r : Poll) : Prop :=
  match r with
  | PollNone => True
  | PollMessage msg =>
      msg_error msg = None ∧
      (∃ k, key_text (msg_key msg) = inr k) ∧
      (∃ b, msg_value msg = Some b ∧ utf8_valid b = true)
  | PollInterrupt => False
  end.

(** The line a message is printed as, if it gets that far. *)
Definition printed_line (msg : Message) : option string :=
  match msg_error msg, key_text (msg_key msg), msg_value msg with
  | None, inr k, Some b =>
      if utf8_valid b then Some (received_line k b) else None
  | _, _, _ => None
  end.

(** The lines that the messages among the results are printed as. *)
Definition lines_of (polls : list Poll) : list string :=
  omap (λ r, match r with
             | PollMessage msg => printed_line msg
             | _ => None
             end) polls.

(** ** Sample data *)

Definition trade_msg : Message :=
  mkMessage None (Some "BTCUSDT") (Some "price=42000").

Definition other_msg : Message :=
  mkMessage None (Some "ETHUSDT") (Some "price=2500").

Definition transport_failure : KafkaError :=
  mkKafkaError (-195) "Broker transport failure".

Definition error_msg : Message :=
  mkMessage (Some transport_failure) None None.

(** The single byte FF, which no UTF-8 text contains. *)
Definition bad_bytes : string := String (Ascii.ascii_of_nat 255) "".

End Consumer.

(* ===================================================================== *)
(** * Properties of the dashboard *)
(* ===================================================================== *)

Section DashboardFacts.
Import Dashboard.

(** ** The orders on rows *)

Local Instance time_le_total : Total time_le.
Proof. intros r1 r2. unfold time_le. lia. Qed.
Local Instance time_le_trans : Transitive time_le.
Proof. intros r1 r2 r3. unfold time_le. lia. Qed.
Local Instance query_order_total rank : Total (query_order rank).
Proof. intros r1 r2. unfold query_order. lia. Qed.
Local Instance query_order_trans rank : Transitive (query_order rank).
Proof. intros r1 r2 r3. unfold query_order. lia. Qed.

Lemma StronglySorted_weaken {A} (R1 R2 : relation A) l :
  (∀ a b, R1 a b → R2 a b) → StronglySorted R1 l → StronglySorted R2 l.
Proof.
  intros Himp. induction 1 as [|a l _ IH Hall]; constructor; [done|].
  eapply Forall_impl; [exact Hall|]. intros b. apply Himp.
Qed.

Lemma sort_values_Permutation df : sort_values df ≡ₚ df.
Proof. apply merge_sort_Permutation. Qed.

Lemma sort_values_StronglySorted df : StronglySorted time_le (sort_values df).
Proof. apply StronglySorted_merge_sort; apply _. Qed.

Lemma order_desc_Permutation rank df : order_by_trade_time_desc rank df ≡ₚ df.
Proof. apply merge_sort_Permutation. Qed.

(** Whatever the rank, the rows come out latest first. *)
Lemma order_desc_StronglySorted rank df :
  StronglySorted time_ge (order_by_trade_time_desc rank df).
Proof.
  apply (StronglySorted_weaken (query_order rank)).
  - intros a b. unfold query_order, time_ge. lia.
  - apply StronglySorted_merge_sort; apply _.
Qed.

(** The times of the ordered rows do not depend on the rank, nor on the
    order in which the rows were given. *)
Lemma order_desc_times rank1 rank2 df1 df2 :
  df1 ≡ₚ df2 →
  df_trade_time <$> order_by_trade_time_desc rank1 df1 =
  df_trade_time <$> order_by_trade_time_desc rank2 df2.
Proof.
  intros Hperm. apply (StronglySorted_unique_strong (λ a b : Z, b ≤ a)).
  - intros a b _ _ Hab Hba. lia.
  - apply (StronglySorted_fmap _ time_ge); [done|].
    apply order_desc_StronglySorted.
  - apply (StronglySorted_fmap _ time_ge); [done|].
    apply order_desc_StronglySorted.
  - by rewrite !order_desc_Permutation, Hperm.
Qed.

(** Ascending with all times distinct is strictly ascending. *)
Lemma StronglySorted_time_lt df :
  StronglySorted time_le df → NoDup (df_trade_time <$> df) →
  StronglySorted time_lt df.
Proof.
  induction 1 as [|r df Hs IH Hall]; intros Hnd; [constructor|].
  rewrite fmap_cons in Hnd. apply NoDup_cons in Hnd as [Hnotin Hnd].
  constructor; [by apply IH|].
  rewrite Forall_forall in Hall |- *. intros r' Hr'.
  specialize (Hall r' Hr'). unfold time_le, time_lt in *.
  assert (df_trade_time r ≠ df_trade_time r'); [|lia].
  intros Heq. apply Hnotin. rewrite Heq. by apply list_elem_of_fmap_2.
Qed.

(** ** What [fetch_trades] computes, path by path *)

Lemma fetch_trades_paths sym limit w :
  fetch_trades sym limit w =
    if db_accepting w then
      if trades_readable w && bool_decide (0 ≤ limit ≤ max_bigint) then
        (Ok (if negb (df_empty (result_set sym limit w))
             then sort_values (result_set sym limit w)
             else result_set sym limit w), after_session w)
      else (Raise DatabaseError, after_session w)
    else (Raise (connect_error w), w).
Proof.
  unfold fetch_trades, mbind, Py_bind, psycopg2_connect.
  destruct (db_accepting w) eqn:Hacc; [|done].
  unfold try_finally, read_sql, conn_close, after_session, result_set; simpl.
  rewrite lookup_insert_eq.
  by destruct (trades_readable w), (bool_decide (0 ≤ limit ≤ max_bigint)).
Qed.

Lemma fetch_trades_available sym limit w :
  db_accepting w = true → trades_readable w = true →
  0 ≤ limit ≤ max_bigint →
  fetch_trades sym limit w =
    (Ok (if negb (df_empty (result_set sym limit w))
         then sort_values (result_set sym limit w)
         else result_set sym limit w), after_session w).
Proof.
  intros Hacc Hread Hlim. rewrite fetch_trades_paths, Hacc, Hread.
  by rewrite bool_decide_eq_true_2.
Qed.

Lemma fetch_trades_Ok_inv sym limit w df w' :
  fetch_trades sym limit w = (Ok df, w') →
  0 ≤ limit ≤ max_bigint ∧ df ≡ₚ result_set sym limit w ∧
  StronglySorted time_le df.
Proof.
  rewrite fetch_trades_paths.
  destruct (db_accepting w); [|done].
  destruct (trades_readable w); simpl; [|done].
  case_bool_decide; [|done].
  intros [= <- _]. split; [done|].
  destruct (result_set sym limit w) as [|r rs] eqn:Hrs; simpl.
  - split; [done|constructor].
  - split; [apply sort_values_Permutation|apply sort_values_StronglySorted].
Qed.

(** ** Connections *)

Lemma open_connections_after_session w :
  open_connections (after_session w) = open_connections w.
Proof.
  unfold open_connections, after_session; simpl.
  set (conn := fresh (dom (connections w))).
  assert (connections w !! conn = None) as Hfresh.
  { apply not_elem_of_dom. apply is_fresh. }
  rewrite insert_insert_eq.
  apply set_eq. intros k. rewrite !elem_of_dom. unfold is_Some.
  setoid_rewrite map_lookup_filter_Some. simpl.
  destruct (decide (k = conn)) as [->|Hne].
  - rewrite lookup_insert_eq, Hfresh.
    split; intros (s & Hs & Ho); simplify_eq/=.
  - by rewrite lookup_insert_ne.
Qed.

(** C10. Whatever the symbol, the limit and the state of the database,
    [fetch_trades] leaves open exactly the connections that were open
    before the call: when [psycopg2.connect] fails nothing was opened, and
    otherwise the [finally] clause closes the connection it opened, also on
    the path where [pd.read_sql] raises.  The handle it used ends up
    recorded as closed. *)
Theorem fetch_trades_closes_connection (sym : string) (limit : Z) (w : World) :
  let w' := (fetch_trades sym limit w).2 in
  open_connections w' = open_connections w ∧
  connections w' !! fresh (dom (connections w)) =
    (if db_accepting w then Some ConnClosed else None).
Proof.
  simpl. rewrite fetch_trades_paths.
  destruct (db_accepting w) eqn:Hacc.
  - assert (∀ r : Result DataFrame,
              (if trades_readable w && bool_decide (0 ≤ limit ≤ max_bigint)
               then (r, after_session w)
               else (Raise DatabaseError, after_session w)).2 = after_session w)
      as Hsnd by (intros r; by destruct (_ && _)).
    rewrite Hsnd. split; [apply open_connections_after_session|].
    unfold after_session; simpl. by rewrite lookup_insert_eq.
  - simpl. split; [done|]. apply not_elem_of_dom, is_fresh.
Qed.

(** ** The window that comes back *)

Lemma result_set_length sym limit w :
  length (result_set sym limit w) =
    Nat.min (Z.to_nat limit) (length (select_symbol sym (market_trades w))).
Proof.
  unfold result_set, sql_limit. rewrite length_take.
  by rewrite (Permutation_length (order_desc_Permutation _ _)).
Qed.

(** The rows cut off by LIMIT are no more recent than the rows kept. *)
Lemma result_set_recent sym limit w :
  ∃ older,
    select_symbol sym (market_trades w) ≡ₚ result_set sym limit w ++ older ∧
    ∀ r r', r ∈ result_set sym limit w → r' ∈ older →
            df_trade_time r' ≤ df_trade_time r.
Proof.
  unfold result_set, sql_limit.
  set (sorted := order_by_trade_time_desc (tie_rank w limit)
                   (select_symbol sym (market_trades w))).
  exists (drop (Z.to_nat limit) sorted). split.
  - rewrite take_drop. symmetry. apply order_desc_Permutation.
  - pose proof (order_desc_StronglySorted (tie_rank w limit)
                  (select_symbol sym (market_trades w))) as Hs.
    fold sorted in Hs.
    rewrite <- (take_drop (Z.to_nat limit) sorted) in Hs.
    apply StronglySorted_app in Hs as (Hcross & _ & _).
    intros r r' Hr Hr'. exact (Hcross r r' Hr Hr').
Qed.

(** The rows of the query, written out on the table itself. *)
Lemma select_symbol_eq sym trades :
  select_symbol sym trades =
    (λ t, mkRow (trade_time t) (price t) (quantity t))
      <$> filter (λ t, symbol t = sym) trades.
Proof. reflexivity. Qed.

(** C7. On a database that answers, for every symbol and every limit the
    query accepts, [fetch_trades] returns the most recent trades of that
    symbol: the rows of the stored trades with this symbol split into the
    returned window and a rest in which no trade is later than any
    returned one.  The window is in chronological order and holds
    [min limit n] rows for [n] stored trades of the symbol, so never more
    than the limit. *)
Theorem fetch_trades_most_recent (sym : string) (limit : Z) (w : World) :
  db_accepting w = true → trades_readable w = true →
  0 ≤ limit ≤ max_bigint →
  ∃ df older,
    (fetch_trades sym limit w).1 = Ok df ∧
    (λ t, mkRow (trade_time t) (price t) (quantity t))
      <$> filter (λ t, symbol t = sym) (market_trades w) ≡ₚ df ++ older ∧
    (∀ r r', r ∈ df → r' ∈ older → df_trade_time r' ≤ df_trade_time r) ∧
    Sorted time_le df ∧
    length df =
      Nat.min (Z.to_nat limit)
              (length (filter (λ t, symbol t = sym) (market_trades w))) ∧
    Z.of_nat (length df) ≤ limit.
Proof.
  intros Hacc Hread Hlim.
  pose proof (fetch_trades_available sym limit w Hacc Hread Hlim) as Hf.
  set (df := if negb (df_empty (result_set sym limit w))
             then sort_values (result_set sym limit w)
             else result_set sym limit w) in Hf.
  pose proof (fetch_trades_Ok_inv _ _ _ _ _ Hf) as (_ & Hperm & Hsorted).
  destruct (result_set_recent sym limit w) as (older & Hsplit & Hrecent).
  assert (length df =
          Nat.min (Z.to_nat limit)
                  (length (filter (λ t, symbol t = sym) (market_trades w))))
    as Hlen.
  { rewrite (Permutation_length Hperm), result_set_length.
    by rewrite select_symbol_eq, length_fmap. }
  exists df, older. rewrite Hf. simpl.
  split; [done|].
  split; [by rewrite <- select_symbol_eq, Hperm|].
  split.
  { intros r1 r2 Hr1 Hr2. apply Hrecent; [|done]. by rewrite <- Hperm. }
  split; [by apply StronglySorted_Sorted|].
  split; [exact Hlen|]. rewrite Hlen. lia.
Qed.

Lemma fetch_trades_most_recent_witness :
  let df := [mkRow 5 1%Q 1%Q; mkRow 9 4%Q 1%Q] in
  (fetch_trades "BTCUSDT" 2 sample_world).1 = Ok df ∧
  ∃ older,
    (λ t, mkRow (trade_time t) (price t) (quantity t))
      <$> filter (λ t, symbol t = "BTCUSDT") (market_trades sample_world)
      ≡ₚ df ++ older ∧
    (∀ r r', r ∈ df → r' ∈ older → df_trade_time r' ≤ df_trade_time r) ∧
    Sorted time_le df ∧
    length df =
      Nat.min (Z.to_nat 2)
        (length (filter (λ t, symbol t = "BTCUSDT")
                   (market_trades sample_world))) ∧
    Z.of_nat (length df) ≤ 2.
Proof.
  assert ((fetch_trades "BTCUSDT" 2 sample_world).1 =
            Ok [mkRow 5 1%Q 1%Q; mkRow 9 4%Q 1%Q]) as Hf
    by (vm_compute; reflexivity).
  split; [exact Hf|].
  destruct (fetch_trades_most_recent "BTCUSDT" 2 sample_world)
    as (df & older & Hdf & Hrest); [reflexivity | reflexivity | done |].
  rewrite Hf in Hdf. injection Hdf as <-. by exists older.
Defined.

(** ** Order of the window *)

Example fetch_trades_tied :
  (fetch_trades "BTCUSDT" 2 tied_world).1 = Ok [mkRow 7 1%Q 1%Q; mkRow 7 2%Q 1%Q].
Proof. vm_compute. reflexivity. Qed.

(** C2, as stated, fails: two trades of one symbol stored with the same
    [trade_time] come back next to each other, so the window is not
    strictly ascending. *)
Lemma fetch_trades_not_strictly_ascending :
  ¬ (∀ (sym : string) (limit : Z) (w : World) (df : DataFrame),
       (fetch_trades sym limit w).1 = Ok df → Sorted time_lt df).
Proof.
  intros Hall.
  pose proof (Hall "BTCUSDT" 2 tied_world _ fetch_trades_tied) as Hs.
  apply Sorted_inv in Hs as [_ Hhd]. apply HdRel_inv in Hhd.
  unfold time_lt in Hhd. simpl in Hhd. lia.
Qed.

(** C2, amended. Every window that [fetch_trades] returns is in ascending
    order of [trade_time], equal times allowed, whatever the order in which
    the trades were stored; it is strictly ascending when the stored trades
    of the symbol have pairwise different times. *)
Theorem fetch_trades_ascending (sym : string) (limit : Z) (w w' : World)
    (df : DataFrame) :
  fetch_trades sym limit w = (Ok df, w') →
  Sorted time_le df ∧
  (NoDup (df_trade_time <$> select_symbol sym (market_trades w)) →
   Sorted time_lt df).
Proof.
  intros Hf. apply fetch_trades_Ok_inv in Hf as (_ & Hperm & Hsorted).
  split; [by apply StronglySorted_Sorted|].
  intros Hnd. apply StronglySorted_Sorted, StronglySorted_time_lt; [done|].
  destruct (result_set_recent sym limit w) as (older & Hsplit & _).
  rewrite Hsplit, fmap_app in Hnd. apply NoDup_app in Hnd as (Hnd & _ & _).
  by rewrite Hperm.
Qed.

Lemma fetch_trades_ascending_witness :
  let df := [mkRow 5 1%Q 1%Q; mkRow 9 4%Q 1%Q] in
  fetch_trades "BTCUSDT" 2 sample_world = (Ok df, after_session sample_world) ∧
  Sorted time_le df ∧ Sorted time_lt df.
Proof.
  assert (fetch_trades "BTCUSDT" 2 sample_world =
            (Ok [mkRow 5 1%Q 1%Q; mkRow 9 4%Q 1%Q], after_session sample_world))
    as Hf by (vm_compute; reflexivity).
  split; [exact Hf|].
  destruct (fetch_trades_ascending _ _ _ _ _ Hf) as [Hle Hlt].
  split; [exact Hle|]. apply Hlt.
  apply (bool_decide_unpack _). vm_compute. exact I.
Defined.

(** ** Limits *)

Example fetch_trades_limit_0 :
  (fetch_trades "BTCUSDT" 0 sample_world).1 = Ok [].
Proof. vm_compute. reflexivity. Qed.

Example fetch_trades_limit_100000 :
  (fetch_trades "BTCUSDT" 100000 sample_world).1 =
    Ok [mkRow 3 3%Q 1%Q; mkRow 5 1%Q 1%Q; mkRow 9 4%Q 1%Q].
Proof. vm_compute. reflexivity. Qed.

(** C4, as stated, fails: a limit outside 1..10000 is not rejected.  On the
    sample store, limit 0 returns the empty frame and limit 100000 returns
    every trade of the symbol. *)
Lemma fetch_trades_limit_not_rejected :
  ¬ (∀ (sym : string) (limit : Z) (w : World),
       ¬ (1 ≤ limit ≤ 10000) → ∃ e, (fetch_trades sym limit w).1 = Raise e).
Proof.
  intros Hall.
  destruct (Hall "BTCUSDT" 100000 sample_world) as [e He]; [lia|].
  rewrite fetch_trades_limit_100000 in He. discriminate He.
Qed.

(** C4, amended. [fetch_trades] checks no bounds of its own on the limit
    and has no error for a limit outside 1..10000: on a database that
    answers, a limit that the LIMIT clause takes (from 0 up to the
    greatest [bigint]) is handed to it as it is and the call returns a
    frame of [min limit n] rows for [n] stored trades of the symbol.  So
    limit 0 returns the empty frame and limit 100000 returns up to 100000
    rows. *)
Theorem fetch_trades_any_limit (sym : string) (limit : Z) (w : World) :
  db_accepting w = true → trades_readable w = true →
  0 ≤ limit ≤ max_bigint →
  (∃ df, (fetch_trades sym limit w).1 = Ok df ∧
         length df =
           Nat.min (Z.to_nat limit)
                   (length (filter (λ t, symbol t = sym) (market_trades w)))) ∧
  (fetch_trades sym 0 w).1 = Ok [] ∧
  (∃ df, (fetch_trades sym 100000 w).1 = Ok df ∧
         length df =
           Nat.min (Z.to_nat 100000)
                   (length (filter (λ t, symbol t = sym) (market_trades w)))).
Proof.
  intros Hacc Hread Hlim.
  assert (∀ l, 0 ≤ l ≤ max_bigint →
     ∃ df, (fetch_trades sym l w).1 = Ok df ∧
           length df =
             Nat.min (Z.to_nat l)
                     (length (filter (λ t, symbol t = sym) (market_trades w))))
    as Hany.
  { intros l Hl.
    pose proof (fetch_trades_available sym l w Hacc Hread Hl) as Hf.
    pose proof (fetch_trades_Ok_inv _ _ _ _ _ Hf) as (_ & Hperm & _).
    eexists. rewrite Hf. split; [reflexivity|].
    rewrite (Permutation_length Hperm), result_set_length.
    by rewrite select_symbol_eq, length_fmap. }
  split; [by apply Hany|]. split.
  - destruct (Hany 0) as (df & Hdf & Hlen); [done|].
    rewrite Hdf. simpl in Hlen. by destruct df.
  - destruct (Hany 100000) as (df & Hdf & Hlen); [done|].
    by exists df.
Qed.

Lemma fetch_trades_any_limit_witness :
  (∃ df, (fetch_trades "BTCUSDT" 2 sample_world).1 = Ok df ∧
         length df =
           Nat.min (Z.to_nat 2)
                   (length (filter (λ t, symbol t = "BTCUSDT")
                              (market_trades sample_world)))) ∧
  (fetch_trades "BTCUSDT" 0 sample_world).1 = Ok [] ∧
  (∃ df, (fetch_trades "BTCUSDT" 100000 sample_world).1 = Ok df ∧
         length df =
           Nat.min (Z.to_nat 100000)
                   (length (filter (λ t, symbol t = "BTCUSDT")
                              (market_trades sample_world)))).
Proof.
  apply (fetch_trades_any_limit "BTCUSDT" 2 sample_world);
    [reflexivity | reflexivity | done].
Defined.

(** ** [update_chart] *)

Lemma update_chart_paths `{pd : Pandas} sym n_points n_intervals w :
  update_chart sym n_points n_intervals w =
    match fetch_trades sym n_points w with
    | (Ok df, w') => (Ok (figure_for sym df), w')
    | (Raise e, w') => (Raise e, w')
    end.
Proof. reflexivity. Qed.

Lemma update_chart_Ok_inv `{pd : Pandas} sym n_points n_intervals w fig w' :
  update_chart sym n_points n_intervals w = (Ok fig, w') →
  ∃ df, fetch_trades sym n_points w = (Ok df, w') ∧ fig = figure_for sym df.
Proof.
  rewrite update_chart_paths.
  destruct (fetch_trades sym n_points w) as [[df|e] w1]; [|done].
  intros [= <- <-]. by exists df.
Qed.

(** A figure has no trace exactly when the frame behind it was empty. *)
Lemma figure_for_no_data `{pd : Pandas} sym df :
  data (figure_for sym df) = [] ↔ df = [].
Proof.
  unfold figure_for. destruct df as [|r df]; simpl; [done|].
  by case_decide.
Qed.

(** C9. For a fixed symbol, row count and store, [update_chart] returns the
    same figure, and leaves the same world, for any two values of the tick
    counter [n_intervals]. *)
Theorem update_chart_ignores_n_intervals `{pd : Pandas} (sym : string)
    (n_points : Z) (n1 n2 : nat) (w : World) :
  update_chart sym n_points n1 w = update_chart sym n_points n2 w.
Proof. by rewrite !update_chart_paths. Qed.

(** C6. On a database that answers, for a symbol without stored trades and
    any limit that the LIMIT clause takes (so any limit within 1..10000),
    [fetch_trades] returns the empty frame, not an error, and
    [update_chart] returns the "no data" figure: its title says so and it
    has no trace, which no figure for a non-empty frame has. *)
Theorem empty_history_renders_no_data `{pd : Pandas} (sym : string)
    (limit : Z) (n_intervals : nat) (w : World) :
  db_accepting w = true → trades_readable w = true →
  0 ≤ limit ≤ max_bigint →
  select_symbol sym (market_trades w) = [] →
  (fetch_trades sym limit w).1 = Ok [] ∧
  (update_chart sym limit n_intervals w).1 = Ok (no_data_figure sym) ∧
  title (layout (no_data_figure sym)) = sym +:+ " – no data found" ∧
  ∀ df, figure_for sym df = no_data_figure sym ↔ df = [].
Proof.
  intros Hacc Hread Hlim Hnone.
  pose proof (fetch_trades_available sym limit w Hacc Hread Hlim) as Hf.
  assert (result_set sym limit w = []) as Hrs.
  { unfold result_set, sql_limit. rewrite Hnone. apply take_nil. }
  rewrite Hrs in Hf. simpl in Hf.
  split; [by rewrite Hf|]. split.
  { rewrite update_chart_paths, Hf. reflexivity. }
  split; [reflexivity|].
  intros df. split.
  - intros Heq. apply (figure_for_no_data sym). by rewrite Heq.
  - by intros ->.
Qed.

Lemma empty_history_renders_no_data_witness :
  select_symbol "UNKNOWN" (market_trades sample_world) = [] ∧
  (fetch_trades "UNKNOWN" 100 sample_world).1 = Ok [] ∧
  (update_chart (pd := sample_pandas) "UNKNOWN" 100 0 sample_world).1 =
    Ok (no_data_figure "UNKNOWN") ∧
  title (layout (no_data_figure "UNKNOWN")) = "UNKNOWN" +:+ " – no data found" ∧
  ∀ df, figure_for (pd := sample_pandas) "UNKNOWN" df =
          no_data_figure "UNKNOWN" ↔ df = [].
Proof.
  split; [reflexivity|].
  apply (empty_history_renders_no_data (pd := sample_pandas)
           "UNKNOWN" 100 0 sample_world);
    [reflexivity | reflexivity | done | reflexivity].
Defined.

(** ** The moving average *)

Lemma rolling_mean_length `{pd : Pandas} window values :
  length (rolling_mean window values) = length values.
Proof. apply length_imap. Qed.

(** [rolling(window).mean()] position by position: NaN before the window
    is full, afterwards the number the library computes there. *)
Lemma rolling_mean_lookup `{pd : Pandas} (window : nat) (values : list Q)
    (i : nat) :
  (i < length values)%nat →
  rolling_mean window values !! i =
    Some (if decide (window ≤ S i ∧ 0 < window)%nat
          then Some (rolling_value window values i) else None).
Proof.
  intros Hi. unfold rolling_mean. rewrite list_lookup_imap.
  destruct (lookup_lt_is_Some_2 values i Hi) as [v ->].
  cbn [fmap option_fmap option_map]. f_equal.
  destruct (decide (window ≤ S i ∧ 0 < window)%nat) as [Hfull|Hnot].
  - rewrite decide_True by lia. done.
  - rewrite decide_False by lia. done.
Qed.


(** The shape of the 10-point series of a frame of at least 10 rows. *)
Lemma rolling_mean_10_shape `{pd : Pandas} (values : list Q) (i : nat) :
  (i < length (rolling_mean 10 values))%nat →
  if decide (9 ≤ i)%nat
  then ∃ m, rolling_mean 10 values !! i = Some (Some m)
  else rolling_mean 10 values !! i = Some None.
Proof.
  rewrite rolling_mean_length. intros Hi.
  rewrite (rolling_mean_lookup 10 values i Hi).
  destruct (decide (9 ≤ i)%nat).
  - rewrite decide_True by lia. eauto.
  - rewrite decide_False by lia. done.
Qed.




Example update_chart_twelve_trades :
  ∃ fig, (update_chart (pd := sample_pandas) "BTCUSDT" 200 0 twelve_world).1 =
           Ok fig ∧
         length (trend_points fig) = 3%nat ∧
         (x <$> ma_trace_of fig) = Some [1; 2; 3; 4; 5; 6; 7; 8; 9; 10; 11; 12] ∧
         trend_at fig 8 = None ∧
         trend_at fig 9 = Some (11 # 2) ∧
         trend_at fig 11 = Some (15 # 2).
Proof. eexists. repeat split; vm_compute; reflexivity. Qed.

(* ===================================================================== *)
(** ** Further properties of [fetch_trades] *)

Lemma fetch_trades_world sym limit w :
  (fetch_trades sym limit w).2 = if db_accepting w then after_session w else w.
Proof.
  rewrite fetch_trades_paths. destruct (db_accepting w); [|done].
  by destruct (trades_readable w && bool_decide (0 ≤ limit ≤ max_bigint)).
Qed.

Lemma result_set_sublist sym limit w :
  result_set sym limit w ⊆+ select_symbol sym (market_trades w).
Proof.
  unfold result_set, sql_limit.
  rewrite <- (order_desc_Permutation (tie_rank w limit)
                (select_symbol sym (market_trades w))) at 2.
  apply sublist_submseteq, sublist_take.
Qed.

(** X2. [fetch_trades] only reads: the table and the state of the server are
    the same after the call, on every path. *)
Theorem fetch_trades_read_only (sym : string) (limit : Z) (w : World) :
  let w' := (fetch_trades sym limit w).2 in
  market_trades w' = market_trades w ∧
  db_accepting w' = db_accepting w ∧
  trades_readable w' = trades_readable w.
Proof.
  simpl. rewrite fetch_trades_world.
  destruct (db_accepting w) eqn:Hacc; [|done].
  unfold after_session; simpl. by rewrite Hacc.
Qed.

(** X3. Every row of the returned frame is a stored trade of the requested
    symbol, with its time, price and quantity, and no stored trade is
    returned more often than it is stored. *)
Theorem fetch_trades_rows_from_store (sym : string) (limit : Z) (w w' : World)
    (df : DataFrame) :
  fetch_trades sym limit w = (Ok df, w') →
  df ⊆+ select_symbol sym (market_trades w) ∧
  ∀ r, r ∈ df →
    ∃ t, t ∈ market_trades w ∧ symbol t = sym ∧
         trade_time t = df_trade_time r ∧ price t = df_price r ∧
         quantity t = df_quantity r.
Proof.
  intros Hf. apply fetch_trades_Ok_inv in Hf as (_ & Hperm & _).
  assert (df ⊆+ select_symbol sym (market_trades w)) as Hsub.
  { rewrite Hperm. apply result_set_sublist. }
  split; [done|]. intros r Hr.
  apply (elem_of_submseteq _ _ _ Hr) in Hsub.
  unfold select_symbol in Hsub.
  apply list_elem_of_fmap in Hsub as (t & -> & Ht).
  apply list_elem_of_filter in Ht as [Hsym Ht].
  by exists t.
Qed.

Lemma fetch_trades_rows_from_store_witness :
  let df := [mkRow 5 1%Q 1%Q; mkRow 9 4%Q 1%Q] in
  fetch_trades "BTCUSDT" 2 sample_world = (Ok df, after_session sample_world) ∧
  df ⊆+ select_symbol "BTCUSDT" (market_trades sample_world) ∧
  ∀ r, r ∈ df →
    ∃ t, t ∈ market_trades sample_world ∧ symbol t = "BTCUSDT" ∧
         trade_time t = df_trade_time r ∧ price t = df_price r ∧
         quantity t = df_quantity r.
Proof.
  assert (fetch_trades "BTCUSDT" 2 sample_world =
            (Ok [mkRow 5 1%Q 1%Q; mkRow 9 4%Q 1%Q], after_session sample_world))
    as Hf by (vm_compute; reflexivity).
  split; [exact Hf|].
  exact (fetch_trades_rows_from_store _ _ _ _ _ Hf).
Defined.

(** X4. When the limit is at least the number of stored trades of the symbol,
    the frame holds all of them. *)
Theorem fetch_trades_whole_history (sym : string) (limit : Z) (w w' : World)
    (df : DataFrame) :
  fetch_trades sym limit w = (Ok df, w') →
  Z.of_nat (length (select_symbol sym (market_trades w))) ≤ limit →
  df ≡ₚ select_symbol sym (market_trades w).
Proof.
  intros Hf Hlen. apply fetch_trades_Ok_inv in Hf as (_ & Hperm & _).
  rewrite Hperm. unfold result_set, sql_limit.
  rewrite take_ge; [apply order_desc_Permutation|].
  rewrite (Permutation_length (order_desc_Permutation _ _)). lia.
Qed.

Lemma fetch_trades_whole_history_witness :
  let df := [mkRow 3 3%Q 1%Q; mkRow 5 1%Q 1%Q; mkRow 9 4%Q 1%Q] in
  fetch_trades "BTCUSDT" 200 sample_world = (Ok df, after_session sample_world) ∧
  df ≡ₚ select_symbol "BTCUSDT" (market_trades sample_world).
Proof.
  assert (fetch_trades "BTCUSDT" 200 sample_world =
            (Ok [mkRow 3 3%Q 1%Q; mkRow 5 1%Q 1%Q; mkRow 9 4%Q 1%Q],
             after_session sample_world))
    as Hf by (vm_compute; reflexivity).
  split; [exact Hf|].
  apply (fetch_trades_whole_history _ _ _ _ _ Hf). vm_compute. discriminate.
Defined.

(** X5. Raising the limit only reaches further back: the trade times of the
    frame for a smaller limit are contained, time for time, in the trade
    times of the frame for a larger one. *)
Theorem fetch_trades_limit_monotone (sym : string) (limit1 limit2 : Z)
    (w w1 w2 : World) (df1 df2 : DataFrame) :
  fetch_trades sym limit1 w = (Ok df1, w1) →
  fetch_trades sym limit2 w = (Ok df2, w2) →
  limit1 ≤ limit2 →
  df_trade_time <$> df1 ⊆+ df_trade_time <$> df2.
Proof.
  intros Hf1 Hf2 Hle.
  apply fetch_trades_Ok_inv in Hf1 as (H1 & Hperm1 & _).
  apply fetch_trades_Ok_inv in Hf2 as (H2 & Hperm2 & _).
  rewrite Hperm1, Hperm2. unfold result_set, sql_limit. rewrite !fmap_take.
  rewrite (order_desc_times (tie_rank w limit1) (tie_rank w limit2)
             _ (select_symbol sym (market_trades w))) by done.
  set (times := df_trade_time <$> order_by_trade_time_desc (tie_rank w limit2)
                                    (select_symbol sym (market_trades w))).
  replace (take (Z.to_nat limit1) times)
    with (take (Z.to_nat limit1) (take (Z.to_nat limit2) times)).
  - apply sublist_submseteq, sublist_take.
  - rewrite take_take. f_equal. lia.
Qed.

Lemma fetch_trades_limit_monotone_witness :
  let df1 := [mkRow 9 4%Q 1%Q] in
  let df2 := [mkRow 5 1%Q 1%Q; mkRow 9 4%Q 1%Q] in
  fetch_trades "BTCUSDT" 1 sample_world = (Ok df1, after_session sample_world) ∧
  fetch_trades "BTCUSDT" 2 sample_world = (Ok df2, after_session sample_world) ∧
  df_trade_time <$> df1 ⊆+ df_trade_time <$> df2.
Proof.
  assert (fetch_trades "BTCUSDT" 1 sample_world =
            (Ok [mkRow 9 4%Q 1%Q], after_session sample_world))
    as Hf1 by (vm_compute; reflexivity).
  assert (fetch_trades "BTCUSDT" 2 sample_world =
            (Ok [mkRow 5 1%Q 1%Q; mkRow 9 4%Q 1%Q], after_session sample_world))
    as Hf2 by (vm_compute; reflexivity).
  split; [exact Hf1|]. split; [exact Hf2|].
  apply (fetch_trades_limit_monotone _ _ _ _ _ _ _ _ Hf1 Hf2). lia.
Defined.

Lemma fetch_trades_fst_ext sym limit w1 w2 :
  db_accepting w1 = db_accepting w2 →
  connect_error w1 = connect_error w2 →
  trades_readable w1 = trades_readable w2 →
  tie_rank w1 = tie_rank w2 →
  select_symbol sym (market_trades w1) = select_symbol sym (market_trades w2) →
  (fetch_trades sym limit w1).1 = (fetch_trades sym limit w2).1.
Proof.
  intros Hacc Herr Hread Hrank Hsel. rewrite !fetch_trades_paths.
  unfold result_set. rewrite Hacc, Herr, Hread, Hrank, Hsel.
  destruct (db_accepting w2); [|done].
  by destruct (trades_readable w2 && bool_decide (0 ≤ limit ≤ max_bigint)).
Qed.

(** X6. Trades of other symbols do not show: storing one more trade of another
    symbol, anywhere in the table, leaves the outcome of the query for
    this symbol as it was. *)
Theorem fetch_trades_other_symbols (sym : string) (limit : Z) (t : TradeRow)
    (before after : list TradeRow) (accepting readable : bool) (err : Exn)
    (rank : Z → FrameRow → Z) (conns : gmap nat ConnStatus) :
  symbol t ≠ sym →
  (fetch_trades sym limit
     (mkWorld accepting err readable (before ++ t :: after) rank conns)).1 =
  (fetch_trades sym limit
     (mkWorld accepting err readable (before ++ after) rank conns)).1.
Proof.
  intros Hne. apply fetch_trades_fst_ext; [done..|]. simpl.
  unfold select_symbol. rewrite !filter_app. by rewrite filter_cons_False.
Qed.

Lemma fetch_trades_other_symbols_witness :
  (fetch_trades "BTCUSDT" 2
     (mkWorld true OperationalError true
        ([btc 5 1%Q] ++ mkTrade "ETHUSDT" 6 2%Q 1%Q :: [btc 3 3%Q])
        (λ _ _, 0) ∅)).1 =
  (fetch_trades "BTCUSDT" 2
     (mkWorld true OperationalError true ([btc 5 1%Q] ++ [btc 3 3%Q])
        (λ _ _, 0) ∅)).1.
Proof.
  apply (fetch_trades_other_symbols "BTCUSDT" 2 (mkTrade "ETHUSDT" 6 2%Q 1%Q)).
  simpl. discriminate.
Defined.

(** X7. A call of [fetch_trades] does not disturb a later one: after any call,
    for any symbol and limit, the next call has the outcome it would have
    had without it. *)
Theorem fetch_trades_repeatable (sym sym0 : string) (limit limit0 : Z)
    (w : World) :
  (fetch_trades sym limit (fetch_trades sym0 limit0 w).2).1 =
  (fetch_trades sym limit w).1.
Proof.
  rewrite fetch_trades_world.
  destruct (db_accepting w) eqn:Hacc; [|done].
  by apply fetch_trades_fst_ext.
Qed.

(** X8. The order in which the trades were stored does not show in the times of
    the frame: two stores that hold the same trades in different orders
    give frames with the same sequence of trade times. *)
Theorem fetch_trades_insertion_order (sym : string) (limit : Z)
    (w1 w2 w1' w2' : World) (df1 df2 : DataFrame) :
  market_trades w1 ≡ₚ market_trades w2 →
  fetch_trades sym limit w1 = (Ok df1, w1') →
  fetch_trades sym limit w2 = (Ok df2, w2') →
  df_trade_time <$> df1 = df_trade_time <$> df2.
Proof.
  intros Hstore Hf1 Hf2.
  apply fetch_trades_Ok_inv in Hf1 as (_ & Hperm1 & Hs1).
  apply fetch_trades_Ok_inv in Hf2 as (_ & Hperm2 & Hs2).
  assert (select_symbol sym (market_trades w1) ≡ₚ
          select_symbol sym (market_trades w2)) as Hsel.
  { unfold select_symbol. by rewrite Hstore. }
  apply (StronglySorted_unique_strong Z.le).
  - intros a b _ _ Hab Hba. lia.
  - by apply (StronglySorted_fmap _ time_le).
  - by apply (StronglySorted_fmap _ time_le).
  - rewrite Hperm1, Hperm2. unfold result_set, sql_limit.
    rewrite !fmap_take.
    by rewrite (order_desc_times (tie_rank w1 limit) (tie_rank w2 limit)
                  _ _ Hsel).
Qed.

Lemma fetch_trades_insertion_order_witness :
  let w1 := sample_store [btc 5 1%Q; btc 3 3%Q; btc 9 4%Q] in
  let w2 := sample_store [btc 9 4%Q; btc 5 1%Q; btc 3 3%Q] in
  let df := [mkRow 5 1%Q 1%Q; mkRow 9 4%Q 1%Q] in
  market_trades w1 ≡ₚ market_trades w2 ∧
  fetch_trades "BTCUSDT" 2 w1 = (Ok df, after_session w1) ∧
  fetch_trades "BTCUSDT" 2 w2 = (Ok df, after_session w2) ∧
  df_trade_time <$> df = df_trade_time <$> df.
Proof.
  intros w1 w2 df.
  assert (market_trades w1 ≡ₚ market_trades w2) as Hperm.
  { subst w1 w2. simpl.
    change [btc 9 4%Q; btc 5 1%Q; btc 3 3%Q]
      with ([btc 9 4%Q] ++ [btc 5 1%Q; btc 3 3%Q]).
    rewrite (Permutation_app_comm [btc 9 4%Q]). reflexivity. }
  assert (fetch_trades "BTCUSDT" 2 w1 = (Ok df, after_session w1)) as Hf1
    by (vm_compute; reflexivity).
  assert (fetch_trades "BTCUSDT" 2 w2 = (Ok df, after_session w2)) as Hf2
    by (vm_compute; reflexivity).
  split; [exact Hperm|]. split; [exact Hf1|]. split; [exact Hf2|].
  exact (fetch_trades_insertion_order _ _ _ _ _ _ _ _ Hperm Hf1 Hf2).
Defined.

(** X9. The latest trade is on the chart: for a limit of at least 1, the last
    row of the frame carries the greatest trade time stored for the
    symbol. *)
Theorem fetch_trades_newest_last (sym : string) (limit : Z) (w w' : World)
    (df : DataFrame) (t : TradeRow) :
  fetch_trades sym limit w = (Ok df, w') →
  1 ≤ limit →
  t ∈ market_trades w → symbol t = sym →
  (∀ t', t' ∈ market_trades w → symbol t' = sym →
         trade_time t' ≤ trade_time t) →
  ∃ r, last df = Some r ∧ df_trade_time r = trade_time t.
Proof.
  intros Hf Hlim Ht Hsym Hmax.
  pose proof (fetch_trades_Ok_inv _ _ _ _ _ Hf) as (_ & Hperm & Hsorted).
  set (row := mkRow (trade_time t) (price t) (quantity t)).
  assert (row ∈ select_symbol sym (market_trades w)) as Hrow.
  { unfold select_symbol. apply list_elem_of_fmap. exists t. split; [done|].
    by apply list_elem_of_filter. }
  assert (∀ r, r ∈ df → df_trade_time r ≤ trade_time t) as Hupper.
  { intros r Hr. rewrite Hperm in Hr.
    pose proof (result_set_sublist sym limit w) as Hsub.
    apply (elem_of_submseteq _ _ _ Hr) in Hsub. unfold select_symbol in Hsub.
    apply list_elem_of_fmap in Hsub as (t' & -> & Ht').
    apply list_elem_of_filter in Ht' as [Hsym' Ht']. simpl. by apply Hmax. }
  assert (df ≠ []) as Hne.
  { intros ->. apply Permutation_nil in Hperm.
    pose proof (result_set_length sym limit w) as Hlen.
    rewrite Hperm in Hlen. simpl in Hlen.
    destruct (select_symbol sym (market_trades w)) as [|r0 rows].
    - by apply not_elem_of_nil in Hrow.
    - simpl in Hlen. lia. }
  apply last_is_Some in Hne as [r Hlast]. exists r. split; [done|].
  apply last_Some in Hlast as [front ->].
  assert (df_trade_time r ≤ trade_time t) as Hle.
  { apply Hupper. apply elem_of_app. right. by left. }
  assert (trade_time t ≤ df_trade_time r); [|lia].
  destruct (result_set_recent sym limit w) as (older & Hsplit & Hrecent).
  rewrite Hsplit in Hrow. apply elem_of_app in Hrow as [Hin|Hin].
  - rewrite <- Hperm in Hin. apply StronglySorted_app in Hsorted as (Hcross & _ & _).
    apply elem_of_app in Hin as [Hin|Hin].
    + apply (Hcross row r Hin). by left.
    + apply list_elem_of_singleton in Hin. by rewrite <- Hin.
  - apply (Hrecent r row); [|done]. rewrite <- Hperm.
    apply elem_of_app. right. by left.
Qed.

Lemma fetch_trades_newest_last_witness :
  let df := [mkRow 5 1%Q 1%Q; mkRow 9 4%Q 1%Q] in
  fetch_trades "BTCUSDT" 2 sample_world = (Ok df, after_session sample_world) ∧
  btc 9 4%Q ∈ market_trades sample_world ∧
  ∃ r, last df = Some r ∧ df_trade_time r = trade_time (btc 9 4%Q).
Proof.
  assert (fetch_trades "BTCUSDT" 2 sample_world =
            (Ok [mkRow 5 1%Q 1%Q; mkRow 9 4%Q 1%Q], after_session sample_world))
    as Hf by (vm_compute; reflexivity).
  assert (btc 9 4%Q ∈ market_trades sample_world) as Hin.
  { unfold sample_world; simpl. do 3 right. left. }
  split; [exact Hf|]. split; [exact Hin|].
  apply (fetch_trades_newest_last _ _ _ _ _ _ Hf); [lia|exact Hin|reflexivity|].
  intros t' Ht' _. unfold sample_world in Ht'; simpl in Ht'.
  repeat (apply elem_of_cons in Ht' as [->|Ht']; [simpl; lia|]).
  by apply not_elem_of_nil in Ht'.
Defined.

(* ===================================================================== *)
(** ** Further properties of [update_chart] *)

Lemma fetch_trades_Ok_available sym limit w df w' :
  fetch_trades sym limit w = (Ok df, w') →
  db_accepting w = true ∧ trades_readable w = true.
Proof.
  rewrite fetch_trades_paths.
  destruct (db_accepting w); [|done].
  by destruct (trades_readable w).
Qed.

(** X10. When the "no data" figure is shown: exactly when the database answered
    the query and the frame came back empty, that is, when the limit is one
    the LIMIT clause takes and it is 0 or no stored trade has the symbol.
    A refused connection or a failed query never gives this figure. *)
Theorem update_chart_no_data_iff `{pd : Pandas} (sym : string) (n_points : Z)
    (n_intervals : nat) (w : World) :
  (update_chart sym n_points n_intervals w).1 = Ok (no_data_figure sym) ↔
  db_accepting w = true ∧ trades_readable w = true ∧
  0 ≤ n_points ≤ max_bigint ∧
  (n_points = 0 ∨ Forall (λ t, symbol t ≠ sym) (market_trades w)).
Proof.
  assert (Forall (λ t, symbol t ≠ sym) (market_trades w) ↔
          select_symbol sym (market_trades w) = []) as Hnone_iff.
  { unfold select_symbol.
    induction (market_trades w) as [|t trades IH]; [by split|].
    rewrite Forall_cons, IH, filter_cons.
    destruct (decide (symbol t = sym)) as [Heq|Hne]; simpl.
    - split; [by intros [Hne _]|done].
    - split; [by intros [_ Hrest]|done]. }
  split.
  - rewrite update_chart_paths.
    destruct (fetch_trades sym n_points w) as [[df|e] w'] eqn:Hf; [|done].
    simpl. intros [= Hfig].
    assert (df = []) as ->.
    { apply (figure_for_no_data sym). by rewrite Hfig. }
    pose proof (fetch_trades_Ok_available _ _ _ _ _ Hf) as [Hacc Hread].
    apply fetch_trades_Ok_inv in Hf as (Hlim & Hperm & _).
    split; [done|]. split; [done|]. split; [done|].
    apply Permutation_nil in Hperm.
    pose proof (result_set_length sym n_points w) as Hlen.
    rewrite Hperm in Hlen. simpl in Hlen.
    rewrite Hnone_iff.
    destruct (select_symbol sym (market_trades w)) as [|r rows]; [by right|].
    left. simpl in Hlen. lia.
  - intros (Hacc & Hread & Hlim & Hnone).
    rewrite update_chart_paths, fetch_trades_available by done.
    assert (result_set sym n_points w = []) as ->; [|done].
    unfold result_set, sql_limit. destruct Hnone as [-> | Hnone]; [done|].
    apply Hnone_iff in Hnone. rewrite Hnone. apply take_nil.
Qed.

(** X11. [update_chart] leaves the world as it found it, whether it returns a
    figure or raises: the same connections are open, and the table is
    untouched. *)
Theorem update_chart_leaves_world `{pd : Pandas} (sym : string) (n_points : Z)
    (n_intervals : nat) (w : World) :
  let w' := (update_chart sym n_points n_intervals w).2 in
  open_connections w' = open_connections w ∧
  market_trades w' = market_trades w.
Proof.
  simpl.
  assert ((update_chart sym n_points n_intervals w).2 =
          (fetch_trades sym n_points w).2) as ->.
  { rewrite update_chart_paths.
    by destruct (fetch_trades sym n_points w) as [[df|e] w']. }
  rewrite fetch_trades_world. destruct (db_accepting w); [|done].
  split; [apply open_connections_after_session|done].
Qed.

(** X12. The traces of a figure: none for an empty frame, the price trace alone
    for 1 to 9 rows, the price trace and the moving average from 10 rows
    on.  Every trace has one x and one y per row of the frame, and the
    price trace shows row [i] as the point (trade time, price). *)
Theorem figure_traces_shape `{pd : Pandas} (sym : string) (df : DataFrame) :
  let fig := figure_for sym df in
  length (data fig) =
    (if decide (length df = 0)%nat then 0
     else if decide (length df < 10)%nat then 1 else 2)%nat ∧
  Forall (λ tr, length (x tr) = length df ∧ length (y tr) = length df)
         (data fig) ∧
  (x <$> data fig !! 0%nat) = (if df_empty df then None
                               else Some (df_trade_time <$> df)) ∧
  (y <$> data fig !! 0%nat) = (if df_empty df then None
                               else Some (Some <$> (df_price <$> df))).
Proof.
  simpl. unfold figure_for. destruct df as [|r df]; [by repeat constructor|].
  cbn [df_empty]. unfold ma_window. case_decide as Hlen.
  - rewrite decide_False by done. rewrite decide_False by lia.
    split; [done|]. split; [|done].
    apply Forall_cons; split; [|apply Forall_cons; split; [|constructor]];
      cbn [x y]; by rewrite ?rolling_mean_length, !length_fmap.
  - rewrite decide_False by done. rewrite decide_True by lia.
    split; [done|]. split; [|done].
    apply Forall_cons; split; [|constructor].
    cbn [x y]. by rewrite !length_fmap.
Qed.

(** X13. The title counts the rows that came back, not the rows asked for:
    whenever [update_chart] returns a figure for a limit of at least 1 and
    a symbol with [n] stored trades, [n >= 1], its title reads
    "last [min n_points n] trades". *)
Theorem update_chart_title `{pd : Pandas} (sym : string) (n_points : Z)
    (n_intervals : nat) (w w' : World) (fig : Figure) :
  update_chart sym n_points n_intervals w = (Ok fig, w') →
  1 ≤ n_points →
  filter (λ t, symbol t = sym) (market_trades w) ≠ [] →
  title (layout fig) =
    sym +:+ " – last "
        +:+ pretty (Nat.min (Z.to_nat n_points)
                      (length (filter (λ t, symbol t = sym) (market_trades w))))
        +:+ " trades".
Proof.
  intros Hup Hlim Hsome.
  apply update_chart_Ok_inv in Hup as (df & Hf & ->).
  apply fetch_trades_Ok_inv in Hf as (_ & Hperm & _).
  assert (length df =
          Nat.min (Z.to_nat n_points)
                  (length (filter (λ t, symbol t = sym) (market_trades w))))
    as Hlen.
  { rewrite (Permutation_length Hperm), result_set_length.
    by rewrite select_symbol_eq, length_fmap. }
  rewrite <- Hlen.
  unfold figure_for. destruct df as [|r df]; [|done].
  simpl in Hlen.
  destruct (filter (λ t, symbol t = sym) (market_trades w));
    [done|simpl in Hlen; lia].
Qed.

Lemma update_chart_title_witness :
  let df := [mkRow 3 3%Q 1%Q; mkRow 5 1%Q 1%Q; mkRow 9 4%Q 1%Q] in
  let fig := figure_for (pd := sample_pandas) "BTCUSDT" df in
  update_chart (pd := sample_pandas) "BTCUSDT" 200 0 sample_world =
    (Ok fig, after_session sample_world) ∧
  title (layout fig) = "BTCUSDT – last 3 trades".
Proof.
  assert (update_chart (pd := sample_pandas) "BTCUSDT" 200 0 sample_world =
            (Ok (figure_for (pd := sample_pandas) "BTCUSDT"
                   [mkRow 3 3%Q 1%Q; mkRow 5 1%Q 1%Q; mkRow 9 4%Q 1%Q]),
             after_session sample_world)) as Hup
    by (vm_compute; reflexivity).
  split; [exact Hup|].
  rewrite (update_chart_title (pd := sample_pandas) _ _ _ _ _ _ Hup);
    [vm_compute; reflexivity | lia | vm_compute; discriminate].
Defined.

(* ===================================================================== *)
(** ** Further properties of the moving average *)

Lemma defined_points_times (times : list Z) (series : list (option Q)) (k : nat) :
  length times = length series →
  (∀ i, (i < length series)%nat →
        if decide (k ≤ i)%nat then ∃ m, series !! i = Some (Some m)
        else series !! i = Some None) →
  (omap (λ tv : Z * option Q, (tv.1,.) <$> tv.2) (zip times series)).*1 =
    drop k times.
Proof.
  revert times k. induction series as [|o series IH]; intros times k Hlen Hat.
  { destruct times; [|done]. by rewrite drop_nil. }
  destruct times as [|t times]; [done|]. injection Hlen as Hlen.
  pose proof (Hat 0%nat ltac:(simpl; lia)) as H0.
  destruct k as [|k].
  - rewrite decide_True in H0 by lia. destruct H0 as [m [= ->]].
    cbn. rewrite (IH times 0%nat Hlen); [done|].
    intros i Hi. specialize (Hat (S i) ltac:(simpl; lia)).
    rewrite decide_True in Hat by lia. rewrite decide_True by lia. exact Hat.
  - rewrite decide_False in H0 by lia. injection H0 as ->.
    cbn. rewrite (IH times k Hlen); [done|].
    intros i Hi. specialize (Hat (S i) ltac:(simpl; lia)).
    destruct (decide (k ≤ i)%nat).
    + rewrite decide_True in Hat by lia. exact Hat.
    + rewrite decide_False in Hat by lia. exact Hat.
Qed.

(** X15. The trend points sit at the trade times of the rows from position 9
    on, in the order of the frame: the first nine rows have none, every
    later row has one. *)
Theorem trend_points_times `{pd : Pandas} (sym : string) (df : DataFrame) :
  (trend_points (figure_for sym df)).*1 = drop 9 (df_trade_time <$> df).
Proof.
  unfold trend_points, ma_trace_of, figure_for.
  destruct (df_empty df) eqn:Hempty.
  { by destruct df. }
  unfold ma_window. case_decide as Hlen.
  - cbn [data lookup list_lookup x y].
    apply defined_points_times.
    + by rewrite rolling_mean_length, !length_fmap.
    + intros i. apply rolling_mean_10_shape.
  - cbn [data lookup list_lookup]. rewrite drop_ge; [done|].
    rewrite length_fmap. lia.
Qed.

End DashboardFacts.

(* ===================================================================== *)
(** * Properties of the bus consumer *)
(* ===================================================================== *)

Section ConsumerFacts.
Import Consumer.

Lemma run_loop_app pre post p :
  run_loop (pre ++ post) p =
    match run_loop pre p with
    | (None, p') => run_loop post p'
    | (Some e, p') => (Some e, p')
    end.
Proof.
  revert p. induction pre as [|r pre IH]; intros p; simpl.
  - by destruct (run_loop post p) as [[e|] p'].
  - by destruct (loop_body r p) as [e|p'].
Qed.

Lemma lines_of_cons r polls : lines_of (r :: polls) = lines_of [r] ++ lines_of polls.
Proof. unfold lines_of. simpl. by destruct r as [|msg|]; [|destruct (printed_line msg)|]. Qed.


(** The body of the loop goes around again exactly for harmless results,
    and then it has appended their line, if they have one. *)
Lemma loop_body_continue r p p' :
  loop_body r p = inr p' ↔
  harmless r ∧ p' = mkProc (stdout p ++ lines_of [r]) (consumer_open p).
Proof.
  destruct r as [|msg|].
  - simpl. rewrite app_nil_r. destruct p as [out op]; simpl.
    split; [by intros [= <-]|by intros [_ ->]].
  - unfold harmless, lines_of, printed_line, loop_body, decode, print.
    cbn [omap list_omap].
    destruct (msg_error msg) as [err|].
    { split; [done|]. by intros [[[=] _] _]. }
    destruct (key_text (msg_key msg)) as [e|k].
    { split; [done|]. by intros [(_ & [k' [=]] & _) _]. }
    destruct (msg_value msg) as [b|].
    2:{ split; [done|]. by intros [(_ & _ & b' & [=] & _) _]. }
    destruct (utf8_valid b) eqn:Hb.
    + split.
      * intros [= <-]. split; [|done]. eauto 10.
      * by intros [_ ->].
    + split; [done|]. intros [(_ & _ & b' & [= <-] & Hb') _]. congruence.
  - simpl. split; [done|]. by intros [[] _].
Qed.


(** ** Timeouts *)

(** C8. A poll that times out without a message changes nothing: the body
    of the loop goes straight back to polling in the same state, so
    dropping the timeout from any sequence of poll results leaves the run
    of the script as it was: same output, same consumer, same outcome. *)
Theorem poll_timeout_is_a_no_op (pre post : list Poll) (p : Proc) :
  loop_body PollNone p = inr p ∧
  run_loop (pre ++ PollNone :: post) p = run_loop (pre ++ post) p ∧
  script (pre ++ PollNone :: post) = script (pre ++ post).
Proof.
  split; [done|].
  assert (∀ q, run_loop (pre ++ PollNone :: post) q = run_loop (pre ++ post) q)
    as Hrun.
  { intros q. rewrite !run_loop_app.
    by destruct (run_loop pre q) as [[e|] p']. }
  split; [apply Hrun|]. unfold script. by rewrite Hrun.
Qed.

(** ** Bus errors *)

Example script_error_then_message :
  script [PollMessage error_msg; PollMessage trade_msg] =
    (Uncaught (KafkaException transport_failure), mkProc [banner] false).
Proof. reflexivity. Qed.

(** C5, as stated, fails: a message that carries a bus error ends the
    script with an uncaught [KafkaException]. *)
Lemma bus_error_terminates_consumer :
  ¬ (∀ (polls : list Poll) (e : KafkaError),
       (script polls).1 ≠ Uncaught (KafkaException e)).
Proof.
  intros Hall.
  apply (Hall [PollMessage error_msg; PollMessage trade_msg] transport_failure).
  by rewrite script_error_then_message.
Qed.

(** C5, amended. A bus error met while polling is fatal: when the loop is
    still running and a poll returns a message that carries an error, the
    script raises [KafkaException] for it, closes the consumer and ends;
    it prints nothing more, and no later poll result is looked at.  There
    is no retry and no backoff. *)
Theorem bus_error_is_fatal (pre post : list Poll) (msg : Message)
    (e : KafkaError) (p : Proc) :
  msg_error msg = Some e →
  run_loop pre (print banner initial) = (None, p) →
  script (pre ++ PollMessage msg :: post) =
    (Uncaught (KafkaException e), consumer_close p).
Proof.
  intros He Hpre. unfold script. rewrite run_loop_app, Hpre.
  simpl. unfold loop_body. by rewrite He.
Qed.

Lemma bus_error_is_fatal_witness :
  script ([PollMessage trade_msg; PollNone] ++
          PollMessage error_msg :: [PollMessage other_msg]) =
    (Uncaught (KafkaException transport_failure),
     consumer_close
       (mkProc [banner; received_line (Some "BTCUSDT") "price=42000"] true)).
Proof.
  apply (bus_error_is_fatal [PollMessage trade_msg; PollNone]
           [PollMessage other_msg] error_msg transport_failure);
    reflexivity.
Defined.

(** ** Repeated deliveries *)

Example script_same_message_twice :
  (script [PollMessage trade_msg; PollMessage other_msg; PollMessage trade_msg]).2 =
    mkProc [banner;
            received_line (Some "BTCUSDT") "price=42000";
            received_line (Some "ETHUSDT") "price=2500";
            received_line (Some "BTCUSDT") "price=42000"] true.
Proof. reflexivity. Qed.




(* ===================================================================== *)
(** ** Further properties of the consumer script *)

(** The loop only ever appends to the output and leaves the consumer as it
    is: after any sequence of poll results the state is the one it started
    from, plus the lines of a harmless front part of the sequence. *)
Lemma run_loop_shape polls p :
  ∃ k, Forall harmless (take k polls) ∧
       (run_loop polls p).2 =
         mkProc (stdout p ++ lines_of (take k polls)) (consumer_open p).
Proof.
  revert p. induction polls as [|r polls IH]; intros p.
  { exists 0%nat. split; [constructor|]. simpl. rewrite app_nil_r. by destruct p. }
  cbn [run_loop]. destruct (loop_body r p) as [e|p'] eqn:Hbody.
  { exists 0%nat. split; [constructor|]. simpl. rewrite app_nil_r. by destruct p. }
  apply loop_body_continue in Hbody as [Hr ->].
  destruct (IH (mkProc (stdout p ++ lines_of [r]) (consumer_open p)))
    as (k & Hk & Hrun).
  exists (S k). rewrite Hrun. cbn [take stdout consumer_open].
  split; [by constructor|].
  by rewrite (lines_of_cons r (take k polls)), app_assoc.
Qed.

Lemma script_stdout polls :
  ∃ k tail, Forall harmless (take k polls) ∧
    stdout (script polls).2 = banner :: lines_of (take k polls) ++ tail ∧
    (tail = [] ∨ tail = [interrupted_notice]).
Proof.
  unfold script.
  destruct (run_loop_shape polls (print banner initial)) as (k & Hk & Hrun).
  destruct (run_loop polls (print banner initial)) as [[e|] p];
    simpl in Hrun; subst p.
  - destruct e; simpl.
    + exists k, []. rewrite app_nil_r. eauto.
    + exists k, []. rewrite app_nil_r. eauto.
    + exists k, []. rewrite app_nil_r. eauto.
    + exists k, [interrupted_notice]. eauto.
  - exists k, []. rewrite app_nil_r. simpl. eauto.
Qed.

(** X17. Once the script has ended, by Ctrl+C or by an exception, nothing that a
    later poll would have returned changes its outcome or its output. *)
Theorem script_ends_for_good (pre post : list Poll) :
  (script pre).1 ≠ StillPolling →
  script (pre ++ post) = script pre.
Proof.
  unfold script. rewrite run_loop_app.
  destruct (run_loop pre (print banner initial)) as [[e|] p]; [done|].
  simpl. by intros [].
Qed.

Lemma script_ends_for_good_witness :
  script ([PollMessage trade_msg; PollInterrupt] ++ [PollMessage other_msg]) =
  script [PollMessage trade_msg; PollInterrupt].
Proof.
  apply (script_ends_for_good [PollMessage trade_msg; PollInterrupt]
           [PollMessage other_msg]).
  simpl. discriminate.
Defined.

(** X18. Output is never taken back: what the script has printed after some
    poll results is a prefix of what it has printed after more of them,
    and the first thing printed is always the banner. *)
Theorem script_output_grows (pre post : list Poll) :
  stdout (script pre).2 `prefix_of` stdout (script (pre ++ post)).2 ∧
  head (stdout (script pre).2) = Some banner.
Proof.
  split.
  - unfold script. rewrite run_loop_app.
    destruct (run_loop pre (print banner initial)) as [[e|] p]; [done|].
    destruct (run_loop_shape post p) as (k & _ & Hrun).
    destruct (run_loop post p) as [[e|] p']; simpl in Hrun; subst p'.
    + destruct e; simpl; [by apply prefix_app_r..|].
      rewrite <- app_assoc. by apply prefix_app_r.
    + simpl. by apply prefix_app_r.
  - destruct (script_stdout pre) as (k & tail & _ & -> & _). done.
Qed.

(** X19. The consumer object is open exactly as long as the script is inside
    the loop: every way out of the loop goes through
    [consumer.close()]. *)
Theorem consumer_open_iff_polling (polls : list Poll) :
  consumer_open (script polls).2 = true ↔ (script polls).1 = StillPolling.
Proof.
  unfold script.
  destruct (run_loop_shape polls (print banner initial)) as (k & _ & Hrun).
  destruct (run_loop polls (print banner initial)) as [[e|] p];
    simpl in Hrun; subst p; [by destruct e|done].
Qed.

(** X20. Ctrl+C during a poll ends the script in the orderly way: the notice is
    printed, the consumer is closed, the script exits without a
    traceback. *)
Theorem interrupt_exits_cleanly (pre post : list Poll) (p : Proc) :
  run_loop pre (print banner initial) = (None, p) →
  script (pre ++ PollInterrupt :: post) =
    (Exited, consumer_close (print interrupted_notice p)).
Proof.
  intros Hpre. unfold script. by rewrite run_loop_app, Hpre.
Qed.

Lemma interrupt_exits_cleanly_witness :
  script ([PollMessage trade_msg; PollNone] ++
          PollInterrupt :: [PollMessage other_msg]) =
    (Exited,
     consumer_close
       (print interrupted_notice
          (mkProc [banner; received_line (Some "BTCUSDT") "price=42000"] true))).
Proof.
  apply (interrupt_exits_cleanly [PollMessage trade_msg; PollNone]
           [PollMessage other_msg]).
  reflexivity.
Defined.

(** X21. A message without a payload is fatal, once its key has been decoded:
    [msg.value()] is [None], the call of [decode] on it raises
    [AttributeError], nothing is printed for the message, the consumer is
    closed and the script dies. *)
Theorem missing_payload_is_fatal (pre post : list Poll) (msg : Message)
    (k : option string) (p : Proc) :
  msg_error msg = None → key_text (msg_key msg) = inr k →
  msg_value msg = None →
  run_loop pre (print banner initial) = (None, p) →
  script (pre ++ PollMessage msg :: post) =
    (Uncaught AttributeError, consumer_close p).
Proof.
  intros He Hk Hv Hpre. unfold script. rewrite run_loop_app, Hpre.
  simpl. unfold loop_body. by rewrite He, Hk, Hv.
Qed.

Lemma missing_payload_is_fatal_witness :
  script ([PollMessage trade_msg] ++
          PollMessage (mkMessage None (Some "BTCUSDT") None)
            :: [PollMessage other_msg]) =
    (Uncaught AttributeError,
     consumer_close
       (mkProc [banner; received_line (Some "BTCUSDT") "price=42000"] true)).
Proof.
  apply (missing_payload_is_fatal [PollMessage trade_msg]
           [PollMessage other_msg] (mkMessage None (Some "BTCUSDT") None)
           (Some "BTCUSDT"));
    reflexivity.
Defined.

(** X22. Nothing is printed that was not received: every line of the output is
    the banner, the notice of the interrupt, or the line of a message that
    a poll delivered without error and whose key and payload decoded. *)
Theorem script_prints_only_deliveries (polls : list Poll) (line : string) :
  line ∈ stdout (script polls).2 →
  line = banner ∨ line = interrupted_notice ∨
  ∃ msg k v, msg ∈ deliveries polls ∧ msg_error msg = None ∧
             key_text (msg_key msg) = inr k ∧
             msg_value msg = Some v ∧ utf8_valid v = true ∧
             line = received_line k v.
Proof.
  destruct (script_stdout polls) as (k & tail & Hk & -> & Htail).
  intros Hin. apply elem_of_cons in Hin as [->|Hin]; [by left|].
  apply elem_of_app in Hin as [Hin|Hin].
  - right; right. unfold lines_of in Hin.
    apply list_elem_of_omap in Hin as (r & Hr & Hline).
    destruct r as [|msg|]; [done| |done].
    unfold printed_line in Hline.
    destruct (msg_error msg) eqn:He; [done|].
    destruct (key_text (msg_key msg)) as [e|key] eqn:Hkey; [done|].
    destruct (msg_value msg) as [v|] eqn:Hv; [|done].
    destruct (utf8_valid v) eqn:Hvalid; [|done].
    injection Hline as <-. exists msg, key, v. split; [|done].
    unfold deliveries. apply list_elem_of_omap. exists (PollMessage msg).
    split; [|done]. apply elem_of_take in Hr as (i & Hi & _).
    by apply list_elem_of_lookup_2 in Hi.
  - destruct Htail as [-> | ->]; [by apply not_elem_of_nil in Hin|].
    apply list_elem_of_singleton in Hin. by right; left.
Qed.

Lemma script_prints_only_deliveries_witness :
  let polls := [PollMessage trade_msg; PollMessage error_msg] in
  let line := received_line (Some "BTCUSDT") "price=42000" in
  line ∈ stdout (script polls).2 ∧
  (line = banner ∨ line = interrupted_notice ∨
   ∃ msg k v, msg ∈ deliveries polls ∧ msg_error msg = None ∧
              key_text (msg_key msg) = inr k ∧
              msg_value msg = Some v ∧ utf8_valid v = true ∧
              line = received_line k v).
Proof.
  assert (received_line (Some "BTCUSDT") "price=42000"
            ∈ stdout (script [PollMessage trade_msg; PollMessage error_msg]).2)
    as Hin.
  { simpl. right. left. }
  split; [exact Hin|].
  exact (script_prints_only_deliveries _ _ Hin).
Defined.

(** X23. Bytes that are not UTF-8 are fatal.  When the loop is running and
    a poll returns an error-free message whose key is not well-formed
    UTF-8, or whose key decodes and whose payload is not well-formed
    UTF-8, [decode] raises [UnicodeDecodeError]: nothing is printed for the
    message, the consumer is closed and the script dies. *)
Theorem undecodable_bytes_are_fatal (pre post : list Poll) (msg : Message)
    (p : Proc) :
  msg_error msg = None →
  key_text (msg_key msg) = inl UnicodeDecodeError ∨
  (∃ k b, key_text (msg_key msg) = inr k ∧ msg_value msg = Some b ∧
          utf8_valid b = false) →
  run_loop pre (print banner initial) = (None, p) →
  script (pre ++ PollMessage msg :: post) =
    (Uncaught UnicodeDecodeError, consumer_close p).
Proof.
  intros He Hbad Hpre. unfold script. rewrite run_loop_app, Hpre.
  cbn [run_loop]. unfold loop_body. rewrite He.
  destruct Hbad as [-> | (k & b & -> & -> & Hb)]; [done|].
  unfold decode. by rewrite Hb.
Qed.

Lemma undecodable_bytes_are_fatal_witness :
  script ([PollMessage trade_msg] ++
          PollMessage (mkMessage None (Some bad_bytes) None)
            :: [PollMessage other_msg]) =
    (Uncaught UnicodeDecodeError,
     consumer_close
       (mkProc [banner; received_line (Some "BTCUSDT") "price=42000"] true)) ∧
  script ([PollMessage trade_msg] ++
          PollMessage (mkMessage None (Some "BTCUSDT") (Some bad_bytes))
            :: [PollMessage other_msg]) =
    (Uncaught UnicodeDecodeError,
     consumer_close
       (mkProc [banner; received_line (Some "BTCUSDT") "price=42000"] true)).
Proof.
  split.
  - apply (undecodable_bytes_are_fatal [PollMessage trade_msg]
             [PollMessage other_msg] (mkMessage None (Some bad_bytes) None));
      [reflexivity | left; reflexivity | reflexivity].
  - apply (undecodable_bytes_are_fatal [PollMessage trade_msg]
             [PollMessage other_msg]
             (mkMessage None (Some "BTCUSDT") (Some bad_bytes)));
      [reflexivity | right; by exists (Some "BTCUSDT"), bad_bytes | reflexivity].
Defined.

End ConsumerFacts.
